(** * The forwarding gateway of [index.js], embedded in Rocq

    The handler exported as [proxy] authenticates the caller, validates
    the target URL against a host whitelist, copies the [x-target-*]
    headers to the outbound request, calls [fetch] and wraps the answer
    in an envelope.  The definitions below follow [index.js] function by
    function.  What the JavaScript platform supplies ([new URL], [fetch],
    [JSON.parse]) is a field of the record [Platform]; what the code
    does with the answers is modelled in full. *)

From stdpp Require Import base option list strings gmap fin_maps.

Local Open Scope string_scope.

(** ** JavaScript strings *)

Module JSString.

(** [s.startsWith(p)]: comparison unit by unit, case-sensitive. *)
Fixpoint startsWith (s p : string) {struct p} : bool :=
  match p with
  | EmptyString => true
  | String a p' =>
      match s with
      | EmptyString => false
      | String b s' => if Ascii.eqb a b then startsWith s' p' else false
      end
  end.

(** The string left after its first [n] units. *)
Fixpoint drop_units (n : nat) (s : string) : string :=
  match n with
  | O => s
  | S n' => match s with
            | EmptyString => EmptyString
            | String _ s' => drop_units n' s'
            end
  end.

(** [s.replace(pat, rep)] for a string pattern [pat] and a replacement
    [rep] without [$] sequences (the code passes the empty string):
    the first occurrence of [pat], searched from the left, is replaced
    and the rest of [s] is kept as it is. *)
Fixpoint replace (s pat rep : string) : string :=
  if startsWith s pat then rep +:+ drop_units (String.length pat) s
  else match s with
       | EmptyString => EmptyString
       | String c s' => String c (replace s' pat rep)
       end.

(** [s.includes(pat)]: [pat] occurs somewhere in [s]. *)
Fixpoint includes (s pat : string) : bool :=
  startsWith s pat
  || match s with
     | EmptyString => false
     | String _ s' => includes s' pat
     end.

(** [s.split(sep)] for a separator of one unit.  The empty string
    splits into one empty piece. *)
Fixpoint split (s : string) (sep : Ascii.ascii) : list string :=
  match s with
  | EmptyString => [EmptyString]
  | String c s' =>
      if Ascii.eqb c sep then EmptyString :: split s' sep
      else match split s' sep with
           | piece :: pieces => String c piece :: pieces
           | [] => [String c EmptyString]
           end
  end.

End JSString.

(** ** JavaScript values the handler tests for truthiness *)

Inductive JSValue : Type :=
| undefined
| null
| JSStr (s : string).

#[global] Instance JSValue_eq_dec : EqDecision JSValue.
Proof. solve_decision. Defined.

(** [!!v]: [undefined], [null] and the empty string are falsy. *)
Definition truthy (v : JSValue) : bool :=
  match v with
  | JSStr s => negb (String.eqb s "")
  | undefined | null => false
  end.

(** [a || b] *)
Definition js_or (a b : JSValue) : JSValue := if truthy a then a else b.

(** [a !== b] *)
Definition strict_neq (a b : JSValue) : bool := negb (bool_decide (a = b)).

(** [String(v)], as [new URL] and [fetch] apply it to their argument. *)
Definition ToString (v : JSValue) : string :=
  match v with
  | undefined => "undefined"
  | null => "null"
  | JSStr s => s
  end.

(** ** Objects with string properties

    [req.headers], [req.query], [req.body] and the outbound [headers]
    are objects read and written as maps from names to strings. *)

(** [o[k]]: the property, or [undefined]. *)
Definition prop_get (o : gmap string string) (k : string) : JSValue :=
  match o !! k with
  | Some s => JSStr s
  | None => undefined
  end.

(** [o?.k] where [o] itself may be [undefined]. *)
Definition opt_get (o : option (gmap string string)) (k : string) : JSValue :=
  match o with
  | Some o' => prop_get o' k
  | None => undefined
  end.

(** [o[k] = v] on an object created by the literal [{}], for a string
    [v].  Such an object inherits the accessor [__proto__] of
    [Object.prototype], whose setter ignores a value that is neither an
    object nor [null]: the assignment then creates no property.  Every
    other name becomes (or overwrites) an own property. *)
Definition prop_set (o : gmap string string) (k v : string) : gmap string string :=
  if String.eqb k "__proto__" then o else <[k := v]> o.

(** [Object.keys(o)]: the names of the own properties, each once. *)
Definition Object_keys (o : gmap string string) : list string :=
  (map_to_list o).*1.

(** [a.includes(x)] on an array of strings. *)
Definition Array_includes (a : list string) (x : string) : bool :=
  bool_decide (x ∈ a).

(** ** Configuration and error messages *)

(** [functions.config()]: the [proxy] group may be missing, and so may
    each of its two entries. *)
Record ProxyGroup : Type := {
  apikey : option string;
  domains : option string
}.

Record Config : Type := { proxy_group : option ProxyGroup }.

(** [const API_KEY = functions.config().proxy?.apikey || null] *)
Definition API_KEY (config : Config) : JSValue :=
  js_or (match proxy_group config ≫= apikey with
         | Some k => JSStr k
         | None => undefined
         end) null.

(** [const ALLOWED_DOMAINS = functions.config().proxy?.domains?.split(',') || []]
    (an array is truthy, also when it is empty). *)
Definition ALLOWED_DOMAINS (config : Config) : list string :=
  match proxy_group config ≫= domains with
  | Some d => JSString.split d (Ascii.ascii_of_nat 44) (* "," *)
  | None => []
  end.

Module ERRORS.
Definition INVALID_API_KEY : string := "Invalid API key".
Definition URL_REQUIRED : string := "URL required".
Definition DOMAIN_NOT_ALLOWED : string := "Domain not allowed".
Definition INVALID_URL_FORMAT : string := "Invalid URL format".
Definition PROXY_REQUEST_FAILED : string := "Proxy request failed".
End ERRORS.

(** ** The platform *)

(** A thrown value: the kind of failure and its internal detail. *)
Record JSError : Type := { error_name : string; error_message : string }.

(** The part of a parsed [URL] the code reads. *)
Record URL : Type := { hostname : string }.

(** The inbound request, as Express hands it to the handler. *)
Record Request : Type := {
  method : string;
  headers : gmap string string;
  query : option (gmap string string);
  body : option (gmap string string)
}.

(** The arguments of one call of [fetch]. *)
Record OutboundCall : Type := {
  call_url : JSValue;
  call_method : string;
  call_headers : gmap string string;
  call_body : JSValue
}.

#[global] Instance OutboundCall_eq_dec : EqDecision OutboundCall.
Proof. solve_decision. Defined.

(** The upstream response: status, headers (names in lower case, as
    [response.headers.get] looks them up) and what reading the body to
    its end gives, the text or a failure. *)
Record FetchResponse : Type := {
  status : nat;
  response_headers : gmap string string;
  body_read : JSError + string
}.

(** What the code calls but does not define: [new URL(s)] (a thrown
    [TypeError] is [inl]), [fetch] (a rejected promise is [inl]) and
    [JSON.parse], with the type of the values it produces. *)
Record Platform : Type := {
  JSONValue : Type;
  URL_new : string → JSError + URL;
  fetch_outcome : OutboundCall → JSError + FetchResponse;
  JSON_parse : string → JSError + JSONValue
}.

(** ** What the handler sends back *)

(** [data] in the envelope: what [response.json()] or [response.text()]
    resolved to. *)
Inductive Data (J : Type) : Type :=
| Parsed (j : J)
| Text (s : string).
Arguments Parsed {J} j.
Arguments Text {J} s.

(** The JSON documents passed to [res.json]. *)
Inductive Payload (J : Type) : Type :=
| ErrorBody (error : string)
| Envelope (upstream_status : nat) (data : Data J).
Arguments ErrorBody {J} error.
Arguments Envelope {J} upstream_status data.

(** [res.status(code).json(payload)]; [res.json] alone sends 200. *)
Record HttpResponse (J : Type) : Type := {
  code : nat;
  payload : Payload J
}.
Arguments code {J} _.
Arguments payload {J} _.
Arguments Build_HttpResponse {J} code payload.

(** ** Asynchronous code that may throw

    A computation runs from the list of outbound calls made so far, and
    either throws or returns, with the list as it has become. *)

Definition Async (A : Type) : Type :=
  list OutboundCall → (JSError + A) * list OutboundCall.

Definition ret {A} (a : A) : Async A := λ calls, (inr a, calls).

Definition throw {A} (e : JSError) : Async A := λ calls, (inl e, calls).

Definition bind {A B} (c : Async A) (k : A → Async B) : Async B :=
  λ calls,
    match c calls with
    | (inr a, calls') => k a calls'
    | (inl e, calls') => (inl e, calls')
    end.

(** [try { c } catch (error) { h }] *)
Definition try_catch {A} (c : Async A) (h : JSError → Async A) : Async A :=
  λ calls,
    match c calls with
    | (inr a, calls') => (inr a, calls')
    | (inl e, calls') => h e calls'
    end.

(** A synchronous or awaited result, lifted. *)
Definition of_result {A} (r : JSError + A) : Async A :=
  match r with
  | inr a => ret a
  | inl e => throw e
  end.

Notation "'await' x ':=' c 'in' k" := (bind c (λ x, k))
  (at level 10, x name, c at level 100, k at level 200, only parsing).

(** ** The functions of [index.js] *)

Inductive Validation : Type :=
| Valid
| Invalid (error : string).

Section Pipeline.

Variable P : Platform.
Variable config : Config.

(** [validateUrl(url)]: [{valid: true}] or [{valid: false, error}].
    Only [new URL] can throw inside the [try] block. *)
Definition validateUrl (url : JSValue) : Validation :=
  if negb (truthy url) then Invalid ERRORS.URL_REQUIRED
  else
    match URL_new P (ToString url) with
    | inr urlObj =>
        if negb (Array_includes (ALLOWED_DOMAINS config) (hostname urlObj))
        then Invalid ERRORS.DOMAIN_NOT_ALLOWED
        else Valid
    | inl error => Invalid ERRORS.INVALID_URL_FORMAT
    end.

(** [response.text()] *)
Definition response_text (response : FetchResponse) : Async string :=
  of_result (body_read response).

(** [response.json()]: the body is read, then parsed. *)
Definition response_json (response : FetchResponse) : Async (JSONValue P) :=
  await text := of_result (body_read response) in
  of_result (JSON_parse P text).

(** [response.headers.get(name)]: the value or [null]. *)
Definition headers_get (response : FetchResponse) (name : string) : JSValue :=
  match response_headers response !! name with
  | Some v => JSStr v
  | None => null
  end.

(** [contentType?.includes('application/json')], as a condition: the
    chain gives [undefined] on [null], which is falsy. *)
Definition labelled_json (contentType : JSValue) : bool :=
  match contentType with
  | JSStr ct => JSString.includes ct "application/json"
  | undefined | null => false
  end.

(** [parseResponseData(response)] *)
Definition parseResponseData (response : FetchResponse) : Async (Data (JSONValue P)) :=
  let contentType := headers_get response "content-type" in
  if labelled_json contentType then
    await j := response_json response in ret (Parsed j)
  else
    await s := response_text response in ret (Text s).

(** The callback of [forEach] in the handler: one inbound header name
    [key], the outbound object [out] built so far. *)
Definition forward_header (inbound out : gmap string string) (key : string)
  : gmap string string :=
  if JSString.startsWith key "x-target-"
  then prop_set out (JSString.replace key "x-target-" "") (inbound !!! key)
  else out.

(** The loop over a list of names, from the empty object. *)
Definition forward_headers_over (keys : list string) (inbound : gmap string string)
  : gmap string string :=
  foldl (forward_header inbound) ∅ keys.

(** [Object.keys(req.headers).forEach(...)] on [const headers = {}] *)
Definition translateHeaders (inbound : gmap string string) : gmap string string :=
  forward_headers_over (Object_keys inbound) inbound.

(** [req.query?.url || req.body?.url] *)
Definition target_url (req : Request) : JSValue :=
  js_or (opt_get (query req) "url") (opt_get (body req) "url").

(** [req.query?.body || req.body?.body] *)
Definition target_body (req : Request) : JSValue :=
  js_or (opt_get (query req) "body") (opt_get (body req) "body").

(** [!API_KEY || req.headers['x-api-key'] !== API_KEY] *)
Definition rejected_key (req : Request) : bool :=
  negb (truthy (API_KEY config))
  || strict_neq (prop_get (headers req) "x-api-key") (API_KEY config).

(** The call [fetch(url, {method, headers, body})] of the handler. *)
Definition outbound_call (req : Request) : OutboundCall :=
  {| call_url := target_url req;
     call_method := method req;
     call_headers := translateHeaders (headers req);
     call_body := target_body req |}.

(** [await fetch(...)]: the call is made, the platform answers. *)
Definition fetch (call : OutboundCall) : Async FetchResponse :=
  λ calls, (fetch_outcome P call, (calls ++ [call])%list).

(** The [try] block of the handler. *)
Definition proxy_try (req : Request) : Async (HttpResponse (JSONValue P)) :=
  if rejected_key req
  then ret (Build_HttpResponse 401 (ErrorBody ERRORS.INVALID_API_KEY))
  else
    let url := target_url req in
    match validateUrl url with
    | Invalid error => ret (Build_HttpResponse 400 (ErrorBody error))
    | Valid =>
        await response := fetch (outbound_call req) in
        await data := parseResponseData response in
        ret (Build_HttpResponse 200 (Envelope (status response) data))
    end.

(** The exported handler, that is the callback run behind the CORS
    middleware: [try { ... } catch (error) { res.status(500)... }] *)
Definition proxy (req : Request) : Async (HttpResponse (JSONValue P)) :=
  try_catch (proxy_try req)
    (λ error, ret (Build_HttpResponse 500 (ErrorBody ERRORS.PROXY_REQUEST_FAILED))).

End Pipeline.

(** ** Words of the claims

    Definitions that state the claims; the code does not use them. *)

(** [pat] is a substring of [s]. *)
Definition contains (s pat : string) : Prop :=
  ∃ pre post, s = pre +:+ pat +:+ post.

(** What [response.json()] resolves to, as a value: a failed read or a
    failed parse, or the parsed document. *)
Definition decoded_json (P : Platform) (response : FetchResponse) : JSError + Data (JSONValue P) :=
  match body_read response with
  | inl e => inl e
  | inr text =>
      match JSON_parse P text with
      | inl e => inl e
      | inr j => inr (Parsed j)
      end
  end.

(** What [response.text()] resolves to: a failed read, or the text. *)
Definition opaque_text (P : Platform) (response : FetchResponse) : JSError + Data (JSONValue P) :=
  match body_read response with
  | inl e => inl e
  | inr s => inr (Text s)
  end.

(** The three ways a forward fails once the call is made: [fetch]
    rejects, the body cannot be read to its end, or a response
    labelled JSON does not parse. *)
Definition forward_fails (P : Platform) (call : OutboundCall) : Prop :=
  (∃ e, fetch_outcome P call = inl e)
  ∨ (∃ response e, fetch_outcome P call = inr response
                   ∧ body_read response = inl e)
  ∨ (∃ response text e,
       fetch_outcome P call = inr response
       ∧ body_read response = inr text
       ∧ labelled_json (headers_get response "content-type") = true
       ∧ JSON_parse P text = inl e).

(** ** A platform and requests to run the handler on

    [Sample.platform] answers as the real functions do on the few
    inputs used below: [new URL] on absolute [https] URLs of three
    hosts, [JSON.parse] on three documents, and an upstream with one
    route per outcome of a call. *)

Module Sample.

Inductive json : Type :=
| json_null
| json_true
| json_array (items : list nat).

Definition type_error : JSError :=
  {| error_name := "TypeError"; error_message := "Invalid URL" |}.

Definition syntax_error : JSError :=
  {| error_name := "SyntaxError"; error_message := "Unexpected token < in JSON at position 0" |}.

Definition fetch_error : JSError :=
  {| error_name := "FetchError";
     error_message := "request to https://httpbin.org/reset failed, reason: connect ECONNREFUSED 10.0.0.7:443" |}.

Definition read_error : JSError :=
  {| error_name := "FetchError";
     error_message := "Invalid response body while trying to fetch https://httpbin.org/drop: Premature close" |}.

Definition parse_url (s : string) : JSError + URL :=
  if JSString.startsWith s "https://httpbin.org/" then inr {| hostname := "httpbin.org" |}
  else if JSString.startsWith s "https://api.example.com/" then inr {| hostname := "api.example.com" |}
  else if JSString.startsWith s "https://evil.com/" then inr {| hostname := "evil.com" |}
  else inl type_error.

Definition parse_json (s : string) : JSError + json :=
  if String.eqb s "null" then inr json_null
  else if String.eqb s "true" then inr json_true
  else if String.eqb s "[1]" then inr (json_array [1])
  else inl syntax_error.

Definition answer (st : nat) (content_type body : string) : JSError + FetchResponse :=
  inr {| status := st;
         response_headers := {[ "content-type" := content_type ]};
         body_read := inr body |}.

Definition upstream (call : OutboundCall) : JSError + FetchResponse :=
  let url := ToString (call_url call) in
  if String.eqb url "https://httpbin.org/json"
  then answer 200 "application/json; charset=utf-8" "[1]"
  else if String.eqb url "https://httpbin.org/status/404"
  then answer 404 "text/plain" "Not Found"
  else if String.eqb url "https://httpbin.org/html"
  then answer 200 "application/json" "<html>"
  else if String.eqb url "https://httpbin.org/drop"
  then inr {| status := 200;
              response_headers := {[ "content-type" := "text/plain" ]};
              body_read := inl read_error |}
  else inl fetch_error.

Definition platform : Platform :=
  {| JSONValue := json;
     URL_new := parse_url;
     fetch_outcome := upstream;
     JSON_parse := parse_json |}.

Definition config : Config :=
  {| proxy_group := Some {| apikey := Some "test-key-123";
                            domains := Some "httpbin.org,api.example.com" |} |}.

(** No [proxy.domains] entry: the list of allowed hosts is empty. *)
Definition config_no_domains : Config :=
  {| proxy_group := Some {| apikey := Some "test-key-123"; domains := None |} |}.

(** A POST with the right key, and the given query and JSON body. *)
Definition request (q b : gmap string string) : Request :=
  {| method := "POST";
     headers := {[ "x-api-key" := "test-key-123" ]};
     query := Some q;
     body := Some b |}.

End Sample.

(** * Properties *)

(** ** Strings *)

Section StringFacts.

Import JSString.


Lemma startsWith_spec s p : startsWith s p = true ↔ ∃ rest, s = p +:+ rest.
Proof.
  revert s. induction p as [|a p IH]; intros s; simpl.
  - split; [intros _; exists s; reflexivity | reflexivity].
  - destruct s as [|b s]; simpl.
    + split; [done | intros [rest Hr]; discriminate].
    + destruct (Ascii.eqb_spec a b) as [->|Hne].
      * rewrite IH. split; intros [rest Hr]; exists rest.
        -- simpl. by rewrite Hr.
        -- simpl in Hr. by injection Hr.
      * split; [done | intros [rest Hr]; simpl in Hr; by injection Hr].
Qed.

Lemma startsWith_app p rest : startsWith (p +:+ rest) p = true.
Proof. apply startsWith_spec. by exists rest. Qed.

Lemma drop_units_app p rest : drop_units (String.length p) (p +:+ rest) = rest.
Proof. induction p as [|a p IH]; simpl; [done | apply IH]. Qed.

Lemma replace_unfold s pat rep :
  replace s pat rep =
  if startsWith s pat then rep +:+ drop_units (String.length pat) s
  else match s with
       | EmptyString => EmptyString
       | String c s' => String c (replace s' pat rep)
       end.
Proof. by destruct s. Qed.

(** On a string that starts with the pattern, the first occurrence
    is the one at the start: only it is removed. *)
Lemma replace_leading p rest : replace (p +:+ rest) p "" = rest.
Proof.
  rewrite replace_unfold, startsWith_app. simpl. apply drop_units_app.
Qed.

Lemma includes_spec s pat : includes s pat = true ↔ contains s pat.
Proof.
  unfold contains. induction s as [|c s IH].
  - simpl. rewrite orb_false_r, startsWith_spec. split.
    + intros [rest ->]. by exists "", rest.
    + intros (pre & post & H). destruct pre; simpl in H; [by exists post | done].
  - cbn [includes]. rewrite orb_true_iff, startsWith_spec, IH. split.
    + intros [[rest ->] | (pre & post & ->)].
      * by exists "", rest.
      * by exists (String c pre), post.
    + intros (pre & post & H). destruct pre as [|c' pre]; simpl in H.
      * left. by exists post.
      * right. exists pre, post. by injection H.
Qed.

Lemma includes_false s pat : includes s pat = false ↔ ¬ contains s pat.
Proof. rewrite <- includes_spec. by destruct (includes s pat). Qed.

End StringFacts.

(** ** Header translation *)

Section HeaderFacts.

Implicit Types (inbound out : gmap string string) (key name : string).

Lemma prop_set_lookup out key v name :
  prop_set out key v !! name =
  if decide (key = name ∧ key ≠ "__proto__") then Some v else out !! name.
Proof.
  unfold prop_set. destruct (String.eqb_spec key "__proto__") as [->|Hne].
  - case_decide as H; [by destruct H | done].
  - case_decide as H.
    + destruct H as [-> _]. apply lookup_insert_eq.
    + apply lookup_insert_ne. intros ->. by apply H.
Qed.

Lemma forward_header_lookup inbound out key name :
  forward_header inbound out key !! name =
  if decide (key = "x-target-" +:+ name ∧ name ≠ "__proto__")
  then Some (inbound !!! key) else out !! name.
Proof.
  unfold forward_header.
  destruct (JSString.startsWith key "x-target-") eqn:Hp.
  - apply startsWith_spec in Hp as [rest ->].
    rewrite replace_leading, prop_set_lookup.
    destruct (decide (rest = name ∧ rest ≠ "__proto__")) as [[-> Hn]|Hno].
    + by rewrite decide_True.
    + rewrite decide_False; [done|]. intros [Heq Hn].
      apply (inj (String.append "x-target-")) in Heq. naive_solver.
  - rewrite decide_False; [done|]. intros [-> _].
    by rewrite startsWith_app in Hp.
Qed.

(** The loop, from any object [out] and over any list of names. *)
Lemma forward_headers_fold inbound keys out name :
  foldl (forward_header inbound) out keys !! name =
  if decide (name ≠ "__proto__" ∧ "x-target-" +:+ name ∈ keys)
  then Some (inbound !!! ("x-target-" +:+ name)) else out !! name.
Proof.
  revert out. induction keys as [|key keys IH]; intros out; simpl.
  - rewrite decide_False; [done|]. intros [_ H]. by apply elem_of_nil in H.
  - rewrite IH, forward_header_lookup.
    destruct (decide (name ≠ "__proto__" ∧ "x-target-" +:+ name ∈ keys))
      as [[Hn Hin]|Hno].
    + rewrite decide_True; [done|]. split; [done|]. apply elem_of_cons. by right.
    + destruct (decide (key = "x-target-" +:+ name ∧ name ≠ "__proto__"))
        as [[-> Hn]|Hno'].
      * rewrite decide_True; [done|]. split; [done|]. apply elem_of_cons. by left.
      * rewrite decide_False; [done|]. intros [Hn Hin].
        apply elem_of_cons in Hin as [Heq|Hin]; [by apply Hno'|by apply Hno].
Qed.

Lemma elem_of_Object_keys inbound key :
  key ∈ Object_keys inbound ↔ is_Some (inbound !! key).
Proof.
  unfold Object_keys. rewrite list_elem_of_fmap. split.
  - intros ([k v] & -> & H). apply elem_of_map_to_list in H. by exists v.
  - intros [v H]. exists (key, v). split; [done|]. by apply elem_of_map_to_list.
Qed.

(** The outbound object: under [name] it holds what the inbound one
    holds under the prefixed name, except that [__proto__] is never
    an own property. *)
Lemma translateHeaders_lookup inbound name :
  translateHeaders inbound !! name =
  if decide (name = "__proto__") then None
  else inbound !! ("x-target-" +:+ name).
Proof.
  unfold translateHeaders, forward_headers_over.
  rewrite forward_headers_fold, lookup_empty.
  destruct (decide (name = "__proto__")) as [->|Hn].
  - rewrite decide_False; [done|]. by intros [? _].
  - destruct (inbound !! ("x-target-" +:+ name)) as [v|] eqn:Hv.
    + rewrite decide_True.
      * f_equal. by apply lookup_total_correct.
      * split; [done|]. apply elem_of_Object_keys. by exists v.
    + rewrite decide_False; [done|]. intros [_ H].
      apply elem_of_Object_keys in H as [v Hv']. congruence.
Qed.

(** The order in which [Object.keys] lists the names does not matter,
    nor does a repeated name. *)
Lemma forward_headers_any_order inbound keys :
  (∀ key, key ∈ keys ↔ is_Some (inbound !! key)) →
  forward_headers_over keys inbound = translateHeaders inbound.
Proof.
  intros Hkeys. apply map_eq. intros name.
  unfold translateHeaders, forward_headers_over.
  rewrite !forward_headers_fold.
  destruct (decide (name ≠ "__proto__" ∧ "x-target-" +:+ name ∈ keys))
    as [[Hn Hin]|Hno].
  - rewrite decide_True; [done|]. split; [done|].
    apply elem_of_Object_keys. by apply Hkeys.
  - rewrite decide_False; [done|]. intros [Hn Hin]. apply Hno. split; [done|].
    apply Hkeys. by apply elem_of_Object_keys.
Qed.

(** Every outbound entry is an inbound entry that carried the prefix,
    under the stripped name and with the same value. *)
Lemma translateHeaders_only_prefixed inbound name v :
  translateHeaders inbound !! name = Some v →
  inbound !! ("x-target-" +:+ name) = Some v.
Proof. rewrite translateHeaders_lookup. by case_decide. Qed.

(** When no inbound header is named x-target-__proto__, the outbound
    object holds exactly the prefixed entries, stripped. *)
Lemma translateHeaders_exact inbound :
  inbound !! "x-target-__proto__" = None →
  ∀ name, translateHeaders inbound !! name = inbound !! ("x-target-" +:+ name).
Proof.
  intros Hnone name. rewrite translateHeaders_lookup.
  case_decide as Hn; [|done]. by rewrite Hn.
Qed.

(** The key header is forwarded only if the caller repeats it under
    the prefix. *)
Lemma translateHeaders_keeps_the_key inbound :
  inbound !! "x-target-x-api-key" = None →
  translateHeaders inbound !! "x-api-key" = None.
Proof. intros H. by rewrite translateHeaders_lookup, decide_False. Qed.

End HeaderFacts.

(** ** The stages of the handler *)

Section PipelineFacts.

Variable P : Platform.
Variable config : Config.


(** The secret the configuration yields is [null] or a non-empty string. *)
Lemma API_KEY_cases :
  API_KEY config = null ∨ ∃ k, k ≠ "" ∧ API_KEY config = JSStr k.
Proof.
  unfold API_KEY, js_or.
  destruct (proxy_group config ≫= apikey) as [k|]; simpl; [|by left].
  destruct (String.eqb_spec k "") as [->|Hk]; simpl; [by left|].
  right. by exists k.
Qed.

(** The gate opens exactly when the header carries the configured,
    non-empty secret. *)
Lemma rejected_key_false req :
  rejected_key config req = false ↔
  ∃ k, k ≠ "" ∧ API_KEY config = JSStr k ∧ headers req !! "x-api-key" = Some k.
Proof.
  unfold rejected_key, strict_neq, prop_get.
  rewrite orb_false_iff, !negb_false_iff, bool_decide_eq_true.
  destruct API_KEY_cases as [Hk | (k & Hk & Hkey)]; rewrite ?Hk, ?Hkey; simpl.
  - split; [by intros [? _] | by intros (? & _ & ? & _)].
  - destruct (String.eqb_spec k "") as [?|_]; [done|]. simpl. split.
    + intros [_ H]. exists k. destruct (headers req !! "x-api-key"); naive_solver.
    + intros (k' & _ & Hk' & ->). naive_solver.
Qed.

Lemma proxy_rejected req calls :
  rejected_key config req = true →
  proxy P config req calls = (inr (Build_HttpResponse 401 (ErrorBody ERRORS.INVALID_API_KEY)), calls).
Proof.
  intros H. unfold proxy, try_catch, proxy_try. by rewrite H.
Qed.

Lemma proxy_invalid req calls error :
  rejected_key config req = false →
  validateUrl P config (target_url req) = Invalid error →
  proxy P config req calls = (inr (Build_HttpResponse 400 (ErrorBody error)), calls).
Proof.
  intros H Hv. unfold proxy, try_catch, proxy_try. by rewrite H, Hv.
Qed.

Lemma parseResponseData_run response calls :
  parseResponseData P response calls =
  (if labelled_json (headers_get response "content-type")
   then decoded_json P response else opaque_text P response, calls).
Proof.
  unfold parseResponseData, decoded_json, opaque_text, response_json, response_text.
  destruct (labelled_json _); unfold bind, of_result, ret, throw;
    destruct (body_read response) as [e|text]; try done.
  by destruct (JSON_parse P text).
Qed.

(** Past the two gates the handler makes exactly one outbound call and
    answers by what came back. *)
Lemma proxy_forward req calls :
  rejected_key config req = false →
  validateUrl P config (target_url req) = Valid →
  proxy P config req calls =
  (inr match fetch_outcome P (outbound_call req) with
       | inl _ => Build_HttpResponse 500 (ErrorBody ERRORS.PROXY_REQUEST_FAILED)
       | inr response =>
           match (if labelled_json (headers_get response "content-type")
                  then decoded_json P response else opaque_text P response) with
           | inl _ => Build_HttpResponse 500 (ErrorBody ERRORS.PROXY_REQUEST_FAILED)
           | inr data => Build_HttpResponse 200 (Envelope (status response) data)
           end
       end,
   (calls ++ [outbound_call req])%list).
Proof.
  intros H Hv. unfold proxy, try_catch, proxy_try.
  rewrite H, Hv. unfold bind at 1. unfold fetch.
  destruct (fetch_outcome P (outbound_call req)) as [e|response]; [done|].
  unfold bind. rewrite parseResponseData_run.
  by destruct (if labelled_json _ then _ else _).
Qed.

(** Every outbound call of a run is the one built from the request. *)
Lemma proxy_calls req :
  (proxy P config req []).2 = [] ∨ (proxy P config req []).2 = [outbound_call req].
Proof.
  destruct (rejected_key config req) eqn:H.
  - left. by rewrite proxy_rejected.
  - destruct (validateUrl P config (target_url req)) as [|error] eqn:Hv.
    + right. by rewrite proxy_forward.
    + left. by rewrite (proxy_invalid _ _ error).
Qed.

End PipelineFacts.


Example sample_domains :
  ALLOWED_DOMAINS Sample.config = ["httpbin.org"; "api.example.com"].
Proof. reflexivity. Qed.

Example sample_round_trip :
  proxy Sample.platform Sample.config
    (Sample.request ∅ {[ "url" := "https://httpbin.org/json" ]}) []
  = (inr {| code := 200;
            payload := Envelope 200 (Parsed (Sample.json_array [1])) |},
     [ {| call_url := JSStr "https://httpbin.org/json";
          call_method := "POST";
          call_headers := ∅;
          call_body := undefined |} ]).
Proof. vm_compute. reflexivity. Qed.

Example sample_header_translation :
  translateHeaders
    (<[ "x-target-authtoken" := "abc123" ]>
       (<[ "content-type" := "application/json" ]>
          {[ "x-api-key" := "test-key-123" ]}))
  = {[ "authtoken" := "abc123" ]}.
Proof. vm_compute. reflexivity. Qed.

Example sample_text_envelope :
  (proxy Sample.platform Sample.config
     (Sample.request {[ "url" := "https://httpbin.org/status/404" ]} ∅) []).1
  = inr {| code := 200; payload := Envelope 404 (Text "Not Found") |}.
Proof. vm_compute. reflexivity. Qed.

Example sample_malformed_url :
  proxy Sample.platform Sample.config
    (Sample.request {[ "url" := "not a url" ]} ∅) []
  = (inr {| code := 400; payload := ErrorBody "Invalid URL format" |}, []).
Proof. vm_compute. reflexivity. Qed.

(** ** Target validation *)

Section ValidationFacts.

Variable P : Platform.
Variable config : Config.

Lemma truthy_false v :
  truthy v = false ↔ v = undefined ∨ v = null ∨ v = JSStr "".
Proof.
  destruct v as [| |s]; simpl.
  - split; [by left | done].
  - split; [by right; left | done].
  - destruct (String.eqb_spec s "") as [->|Hs]; simpl.
    + split; [by right; right | done].
    + split; [done | intros [?|[?|?]]; congruence].
Qed.

Lemma validateUrl_missing url :
  truthy url = false → validateUrl P config url = Invalid ERRORS.URL_REQUIRED.
Proof. intros H. unfold validateUrl. by rewrite H. Qed.

Lemma validateUrl_string s :
  s ≠ "" →
  validateUrl P config (JSStr s) =
  match URL_new P s with
  | inr urlObj =>
      if bool_decide (hostname urlObj ∈ ALLOWED_DOMAINS config)
      then Valid else Invalid ERRORS.DOMAIN_NOT_ALLOWED
  | inl _ => Invalid ERRORS.INVALID_URL_FORMAT
  end.
Proof.
  intros Hs. unfold validateUrl, Array_includes. simpl.
  destruct (String.eqb_spec s "") as [?|_]; [done|]. simpl.
  destruct (URL_new P s) as [e|u]; [done|]. by destruct (bool_decide _).
Qed.

(** A URL that parses to a host outside the list stops the handler:
    the message is that of the host check, the status the 400 that the
    handler sends for every failed validation. *)
Lemma proxy_unlisted_host req s u :
  rejected_key config req = false →
  target_url req = JSStr s → s ≠ "" →
  URL_new P s = inr u →
  hostname u ∉ ALLOWED_DOMAINS config →
  proxy P config req [] =
  (inr {| code := 400; payload := ErrorBody "Domain not allowed" |}, []).
Proof.
  intros Hkey Hurl Hs Hparse Hhost.
  apply proxy_invalid; [done|].
  rewrite Hurl, validateUrl_string, Hparse by done.
  by rewrite bool_decide_eq_false_2.
Qed.

(** With an empty list every URL that parses is turned away so. *)
Lemma proxy_no_domains req s u :
  rejected_key config req = false →
  target_url req = JSStr s → s ≠ "" →
  URL_new P s = inr u →
  ALLOWED_DOMAINS config = [] →
  proxy P config req [] =
  (inr {| code := 400; payload := ErrorBody "Domain not allowed" |}, []).
Proof.
  intros Hkey Hurl Hs Hparse Hnone.
  apply (proxy_unlisted_host req s u); try done.
  rewrite Hnone. apply not_elem_of_nil.
Qed.

End ValidationFacts.

(** * The claims *)

(** C1 (the code departs from the claim).  The claim: a request that
    passes authentication and names a URL that parses, with a host
    outside the allowed list, is answered with status 403 and the
    message "Domain not allowed", and no outbound call is made.  With
    allowed hosts httpbin.org and api.example.com, the right key and
    the URL https://evil.com/x, the handler makes no call and sends the
    message, but under status 400, the one status it uses for every
    failed validation; the same holds with an empty list. *)
Theorem C1_unlisted_host_is_answered_400 :
  let req := Sample.request {[ "url" := "https://evil.com/x" ]} ∅ in
  rejected_key Sample.config req = false
  ∧ URL_new Sample.platform "https://evil.com/x" = inr {| hostname := "evil.com" |}
  ∧ ("evil.com" ∉ ALLOWED_DOMAINS Sample.config)
  ∧ proxy Sample.platform Sample.config req []
    = (inr {| code := 400; payload := ErrorBody "Domain not allowed" |}, [])
  ∧ proxy Sample.platform Sample.config_no_domains req []
    = (inr {| code := 400; payload := ErrorBody "Domain not allowed" |}, []).
Proof.
  intros req. split_and!; [done|done| |done|done].
  intros H. change (ALLOWED_DOMAINS Sample.config)
    with ["httpbin.org"; "api.example.com"] in H.
  apply elem_of_cons in H as [H|H]; [done|].
  apply elem_of_cons in H as [H|H]; [done|].
  by apply elem_of_nil in H.
Qed.

(** C2 (the code departs from the claim).  The claim: the outbound
    headers hold exactly the inbound names that start with x-target-,
    stripped of the prefix, with their values.  The inbound header
    x-target-__proto__ carries the prefix, yet the outbound object has
    no entry for it: the assignment [headers['__proto__'] = value] on
    an object literal creates no property.  The other prefixed header
    of the same request is forwarded, the key header is not. *)
Theorem C2_proto_header_is_not_forwarded :
  translateHeaders
    (<[ "x-target-__proto__" := "v" ]>
       (<[ "x-target-authtoken" := "abc123" ]> {[ "x-api-key" := "test-key-123" ]}))
  = {[ "authtoken" := "abc123" ]}.
Proof.
  apply map_eq. intros name. rewrite translateHeaders_lookup.
  destruct (decide (name = "__proto__")) as [->|Hn]; [done|].
  destruct (decide (name = "authtoken")) as [->|Ha]; [done|].
  rewrite lookup_singleton_ne by done.
  rewrite !lookup_insert_ne, lookup_singleton_ne; try done.
  - intros H. by apply (inj (String.append "x-target-") "authtoken") in H.
  - intros H. by apply (inj (String.append "x-target-") "__proto__") in H.
Qed.

(** C3.  Authentication fails closed and compares exactly: when the
    configured secret is absent, or the x-api-key header is absent, or
    its value differs from the secret, the handler answers 401 with
    "Invalid API key" and makes no outbound call, whatever the rest of
    the request and the platform are; it answers otherwise only when
    the header equals the configured secret, unit for unit. *)
Theorem C3_authentication_fail_closed (P : Platform) (config : Config) (req : Request) :
  (API_KEY config = null
   ∨ prop_get (headers req) "x-api-key" = undefined
   ∨ prop_get (headers req) "x-api-key" ≠ API_KEY config
   → proxy P config req []
     = (inr {| code := 401; payload := ErrorBody "Invalid API key" |}, []))
  ∧ (proxy P config req []
     ≠ (inr {| code := 401; payload := ErrorBody "Invalid API key" |}, [])
     → ∃ k, API_KEY config = JSStr k ∧ headers req !! "x-api-key" = Some k).
Proof.
  split.
  - intros Hbad. apply proxy_rejected.
    destruct (rejected_key config req) eqn:Hr; [done|].
    apply rejected_key_false in Hr as (k & _ & Hk & Hh).
    unfold prop_get in Hbad. rewrite Hk, Hh in Hbad.
    by destruct Hbad as [?|[?|?]].
  - intros Hgo. destruct (rejected_key config req) eqn:Hr.
    + by rewrite proxy_rejected in Hgo.
    + apply rejected_key_false in Hr as (k & _ & Hk & Hh). by exists k.
Qed.

(** C3 at a request whose key has the wrong case, and at one with the
    right key. *)
Lemma C3_authentication_fail_closed_witness :
  let wrong :=
    {| method := "GET"; headers := {[ "x-api-key" := "Test-Key-123" ]};
       query := Some {[ "url" := "https://httpbin.org/json" ]}; body := None |} in
  proxy Sample.platform Sample.config wrong []
  = (inr {| code := 401; payload := ErrorBody "Invalid API key" |}, [])
  ∧ ∃ k, API_KEY Sample.config = JSStr k
         ∧ headers (Sample.request ∅ ∅) !! "x-api-key" = Some k.
Proof.
  intros wrong. split.
  - apply (C3_authentication_fail_closed Sample.platform Sample.config wrong).
    right. right. vm_compute. discriminate.
  - apply (C3_authentication_fail_closed Sample.platform Sample.config
             (Sample.request ∅ ∅)).
    vm_compute. discriminate.
Defined.

(** C4, refuted as stated: a request carries the url in both places,
    an empty one in the query, and the target is not the query's. *)
Lemma C4_query_precedence_counterexample :
  ¬ (∀ (req : Request) (q b : string),
       opt_get (query req) "url" = JSStr q →
       opt_get (body req) "url" = JSStr b →
       target_url req = JSStr q).
Proof.
  intros H.
  specialize (H (Sample.request {[ "url" := "" ]}
                   {[ "url" := "https://httpbin.org/json" ]})
                "" "https://httpbin.org/json" eq_refl eq_refl).
  discriminate H.
Qed.

(** C4, amended.  When the query parameter url and the body field url
    are both present and the query value is not empty, the query value
    is the forward target: it is what is validated and what every
    outbound call is addressed to.  The same holds for the payload
    field body. *)
Theorem C4_nonempty_query_takes_precedence
    (P : Platform) (config : Config) (req : Request) :
  (∀ q b, opt_get (query req) "url" = JSStr q →
          opt_get (body req) "url" = JSStr b →
          q ≠ "" →
          target_url req = JSStr q
          ∧ ∀ call, call ∈ (proxy P config req []).2 → call_url call = JSStr q)
  ∧ (∀ q b, opt_get (query req) "body" = JSStr q →
            opt_get (body req) "body" = JSStr b →
            q ≠ "" →
            target_body req = JSStr q
            ∧ ∀ call, call ∈ (proxy P config req []).2 → call_body call = JSStr q).
Proof.
  assert (Hor : ∀ q v, q ≠ "" → js_or (JSStr q) v = JSStr q).
  { intros q v Hq. unfold js_or. simpl.
    by destruct (String.eqb_spec q "") as [?|_]. }
  split; intros q b Hq Hb Hne.
  - assert (Ht : target_url req = JSStr q).
    { unfold target_url. rewrite Hq. by apply Hor. }
    split; [done|]. intros call Hcall.
    destruct (proxy_calls P config req) as [E|E]; rewrite E in Hcall.
    + by apply elem_of_nil in Hcall.
    + apply list_elem_of_singleton in Hcall as ->. exact Ht.
  - assert (Ht : target_body req = JSStr q).
    { unfold target_body. rewrite Hq. by apply Hor. }
    split; [done|]. intros call Hcall.
    destruct (proxy_calls P config req) as [E|E]; rewrite E in Hcall.
    + by apply elem_of_nil in Hcall.
    + apply list_elem_of_singleton in Hcall as ->. exact Ht.
Qed.

(** C4 amended, at a request with two different targets and payloads. *)
Lemma C4_nonempty_query_takes_precedence_witness :
  let req := Sample.request
               {[ "url" := "https://httpbin.org/json"; "body" := "from-query" ]}
               {[ "url" := "https://httpbin.org/status/404"; "body" := "from-body" ]} in
  target_url req = JSStr "https://httpbin.org/json"
  ∧ target_body req = JSStr "from-query".
Proof.
  intros req.
  destruct (C4_nonempty_query_takes_precedence Sample.platform Sample.config req)
    as [Hurl Hbody].
  split.
  - apply (Hurl "https://httpbin.org/json" "https://httpbin.org/status/404");
      [reflexivity | reflexivity | discriminate].
  - apply (Hbody "from-query" "from-body");
      [reflexivity | reflexivity | discriminate].
Defined.


(** C5.  Whatever is thrown inside the handler is caught: the handler
    always answers, and answers an exception with 500 and the one
    message "Proxy request failed", which carries nothing of the thrown
    value.  In particular a request past both gates whose forward fails
    (network, body read, or JSON decoding of a response labelled JSON)
    gets exactly that answer, after its one outbound call. *)
Theorem C5_failures_are_normalised (P : Platform) (config : Config) (req : Request) :
  (∀ calls, ∃ answer calls', proxy P config req calls = (inr answer, calls'))
  ∧ (∀ calls e calls',
       proxy_try P config req calls = (inl e, calls') →
       proxy P config req calls
       = (inr {| code := 500; payload := ErrorBody "Proxy request failed" |}, calls'))
  ∧ (rejected_key config req = false →
     validateUrl P config (target_url req) = Valid →
     forward_fails P (outbound_call req) →
     proxy P config req []
     = (inr {| code := 500; payload := ErrorBody "Proxy request failed" |},
        [outbound_call req])).
Proof.
  split_and!.
  - intros calls. unfold proxy, try_catch.
    destruct (proxy_try P config req calls) as [[e|answer] calls']; eauto.
  - intros calls e calls' H. unfold proxy, try_catch. by rewrite H.
  - intros Hkey Hvalid Hfail. rewrite proxy_forward by done. simpl. f_equal. f_equal.
    destruct Hfail as [(e & ->) | [(r & e & -> & Hb) | (r & text & e & -> & Hb & Hl & Hj)]].
    + done.
    + unfold decoded_json, opaque_text. rewrite Hb. by destruct (labelled_json _).
    + rewrite Hl. unfold decoded_json. by rewrite Hb, Hj.
Qed.

(** C5 at the three failures: a refused connection, a body cut short,
    and HTML under a JSON label. *)
Lemma C5_failures_are_normalised_witness :
  let failed (url : string) :=
    proxy Sample.platform Sample.config (Sample.request {[ "url" := url ]} ∅) []
    = (inr {| code := 500; payload := ErrorBody "Proxy request failed" |},
       [outbound_call (Sample.request {[ "url" := url ]} ∅)]) in
  failed "https://httpbin.org/reset"
  ∧ failed "https://httpbin.org/drop"
  ∧ failed "https://httpbin.org/html".
Proof.
  intros failed. unfold failed. split_and!.
  - apply (C5_failures_are_normalised Sample.platform Sample.config);
      [reflexivity | reflexivity |].
    left. exists Sample.fetch_error. reflexivity.
  - apply (C5_failures_are_normalised Sample.platform Sample.config);
      [reflexivity | reflexivity |].
    right. left. eexists _, Sample.read_error. split; reflexivity.
  - apply (C5_failures_are_normalised Sample.platform Sample.config);
      [reflexivity | reflexivity |].
    right. right. eexists _, "<html>", Sample.syntax_error.
    split_and!; reflexivity.
Defined.

(** C6.  Validation fails with "URL required" exactly when the raw URL
    is absent or empty, and with "Invalid URL format" exactly when a
    non-empty raw URL does not parse; neither verdict looks at the
    allowed hosts, which are consulted only for a URL that parsed.  For
    a request with the right key each verdict is sent with status 400
    and no outbound call. *)
Theorem C6_missing_and_malformed_targets
    (P : Platform) (config : Config) (url : JSValue) :
  (validateUrl P config url = Invalid "URL required"
   ↔ url = undefined ∨ url = null ∨ url = JSStr "")
  ∧ (validateUrl P config url = Invalid "Invalid URL format"
     ↔ ∃ s e, url = JSStr s ∧ s ≠ "" ∧ URL_new P s = inl e)
  ∧ (∀ req error,
       rejected_key config req = false →
       target_url req = url →
       validateUrl P config url = Invalid error →
       proxy P config req []
       = (inr {| code := 400; payload := ErrorBody error |}, [])).
Proof.
  split_and!.
  - rewrite <- truthy_false. split; [|apply validateUrl_missing].
    intros H. destruct (truthy url) eqn:Ht; [|done].
    destruct url as [| |s]; try done.
    assert (Hs : s ≠ "") by (intros ->; done).
    rewrite validateUrl_string in H by done.
    destruct (URL_new P s); [done|]. by destruct (bool_decide _).
  - split.
    + intros H. destruct (truthy url) eqn:Ht.
      * destruct url as [| |s]; try done.
        assert (Hs : s ≠ "") by (intros ->; done).
        rewrite validateUrl_string in H by done.
        destruct (URL_new P s) as [e|u] eqn:Hp; [by exists s, e|].
        by destruct (bool_decide _).
      * by rewrite validateUrl_missing in H.
    + intros (s & e & -> & Hs & Hp). by rewrite validateUrl_string, Hp.
  - intros req error Hkey <- Hv. by apply proxy_invalid.
Qed.

(** C6 at a request without any url and at one whose url is not
    absolute. *)
Lemma C6_missing_and_malformed_targets_witness :
  proxy Sample.platform Sample.config (Sample.request ∅ ∅) []
  = (inr {| code := 400; payload := ErrorBody "URL required" |}, [])
  ∧ proxy Sample.platform Sample.config
      (Sample.request {[ "url" := "not a url" ]} ∅) []
    = (inr {| code := 400; payload := ErrorBody "Invalid URL format" |}, []).
Proof.
  split.
  - apply (C6_missing_and_malformed_targets Sample.platform Sample.config undefined);
      [reflexivity | reflexivity |].
    apply (C6_missing_and_malformed_targets Sample.platform Sample.config undefined).
    by left.
  - apply (C6_missing_and_malformed_targets Sample.platform Sample.config
             (JSStr "not a url")); [reflexivity | reflexivity |].
    apply (C6_missing_and_malformed_targets Sample.platform Sample.config
             (JSStr "not a url")).
    exists "not a url", Sample.type_error. split_and!; [reflexivity | discriminate | reflexivity].
Defined.

(** C7.  The body of an upstream response is decoded as JSON if and
    only if its content-type header contains "application/json" as a
    substring; if the header is absent or does not contain it, the body
    is returned as text.  Neither case makes an outbound call. *)
Theorem C7_json_iff_content_type_contains
    (P : Platform) (response : FetchResponse) (calls : list OutboundCall) :
  ((∃ ct, response_headers response !! "content-type" = Some ct
          ∧ contains ct "application/json")
   → parseResponseData P response calls = (decoded_json P response, calls))
  ∧ (¬ (∃ ct, response_headers response !! "content-type" = Some ct
              ∧ contains ct "application/json")
     → parseResponseData P response calls = (opaque_text P response, calls)).
Proof.
  rewrite parseResponseData_run. unfold headers_get. split.
  - intros (ct & -> & Hc). simpl. apply includes_spec in Hc. by rewrite Hc.
  - intros Hno. destruct (response_headers response !! "content-type") as [ct|];
      [|done].
    simpl. destruct (JSString.includes ct "application/json") eqn:Hc; [|done].
    exfalso. apply Hno. exists ct. split; [done|]. by apply includes_spec.
Qed.

(** C7 at a header with a charset parameter, and at a plain-text one. *)
Lemma C7_json_iff_content_type_contains_witness :
  let labelled ct text :=
    {| status := 200; response_headers := {[ "content-type" := ct ]};
       body_read := inr text |} in
  parseResponseData Sample.platform
    (labelled "application/json; charset=utf-8" "[1]") []
  = (inr (Parsed (Sample.json_array [1])), [])
  ∧ parseResponseData Sample.platform (labelled "text/plain" "[1]") []
    = (inr (Text "[1]"), []).
Proof.
  intros labelled. split.
  - apply (C7_json_iff_content_type_contains Sample.platform
             (labelled "application/json; charset=utf-8" "[1]") []).
    exists "application/json; charset=utf-8". split; [reflexivity|].
    apply includes_spec. reflexivity.
  - apply (C7_json_iff_content_type_contains Sample.platform
             (labelled "text/plain" "[1]") []).
    intros (ct & Hct & Hc). vm_compute in Hct. injection Hct as <-.
    apply includes_spec in Hc. vm_compute in Hc. discriminate.
Defined.

(** C8.  A forward that succeeds (the call is answered and the body is
    read and decoded) is answered with status 200 and the envelope of
    the upstream status, unchanged, and the decoded body. *)
Theorem C8_envelope_carries_upstream_status
    (P : Platform) (config : Config) (req : Request)
    (response : FetchResponse) (data : Data (JSONValue P)) :
  rejected_key config req = false →
  validateUrl P config (target_url req) = Valid →
  fetch_outcome P (outbound_call req) = inr response →
  parseResponseData P response [outbound_call req]
  = (inr data, [outbound_call req]) →
  proxy P config req []
  = (inr {| code := 200; payload := Envelope (status response) data |},
     [outbound_call req]).
Proof.
  intros Hkey Hvalid Hfetch Hdata. rewrite proxy_forward, Hfetch by done.
  rewrite parseResponseData_run in Hdata. injection Hdata as Hdata.
  by rewrite Hdata.
Qed.

(** C8 at an upstream that answers 404 with a text body. *)
Lemma C8_envelope_carries_upstream_status_witness :
  let req := Sample.request ∅ {[ "url" := "https://httpbin.org/status/404" ]} in
  proxy Sample.platform Sample.config req []
  = (inr {| code := 200; payload := Envelope 404 (Text "Not Found") |},
     [outbound_call req]).
Proof.
  intros req.
  apply (C8_envelope_carries_upstream_status Sample.platform Sample.config req
           {| status := 404; response_headers := {[ "content-type" := "text/plain" ]};
              body_read := inr "Not Found" |} (Text "Not Found"));
    reflexivity.
Defined.

(** C9.  A query parameter that is present but empty counts as absent:
    with an empty url in the query and a non-empty url in the body, the
    body's url is the forward target, the one validated and the one
    every outbound call is addressed to; the same holds for the payload
    field body. *)
Theorem C9_empty_query_value_falls_back_to_body
    (P : Platform) (config : Config) (req : Request) :
  (∀ b, opt_get (query req) "url" = JSStr "" →
        opt_get (body req) "url" = JSStr b →
        b ≠ "" →
        target_url req = JSStr b
        ∧ ∀ call, call ∈ (proxy P config req []).2 → call_url call = JSStr b)
  ∧ (∀ b, opt_get (query req) "body" = JSStr "" →
          opt_get (body req) "body" = JSStr b →
          b ≠ "" →
          target_body req = JSStr b
          ∧ ∀ call, call ∈ (proxy P config req []).2 → call_body call = JSStr b).
Proof.
  split; intros b Hq Hb Hne.
  - assert (Ht : target_url req = JSStr b).
    { unfold target_url. by rewrite Hq, Hb. }
    split; [done|]. intros call Hcall.
    destruct (proxy_calls P config req) as [E|E]; rewrite E in Hcall.
    + by apply elem_of_nil in Hcall.
    + apply list_elem_of_singleton in Hcall as ->. exact Ht.
  - assert (Ht : target_body req = JSStr b).
    { unfold target_body. by rewrite Hq, Hb. }
    split; [done|]. intros call Hcall.
    destruct (proxy_calls P config req) as [E|E]; rewrite E in Hcall.
    + by apply elem_of_nil in Hcall.
    + apply list_elem_of_singleton in Hcall as ->. exact Ht.
Qed.

(** C9 at a request with an empty url and an empty body in the query. *)
Lemma C9_empty_query_value_falls_back_to_body_witness :
  let req := Sample.request
               {[ "url" := ""; "body" := "" ]}
               {[ "url" := "https://httpbin.org/json"; "body" := "from-body" ]} in
  (target_url req = JSStr "https://httpbin.org/json"
   ∧ ∀ call, call ∈ (proxy Sample.platform Sample.config req []).2 →
             call_url call = JSStr "https://httpbin.org/json")
  ∧ target_body req = JSStr "from-body".
Proof.
  intros req.
  destruct (C9_empty_query_value_falls_back_to_body Sample.platform Sample.config req)
    as [Hurl Hbody].
  split.
  - apply Hurl; [reflexivity | reflexivity | discriminate].
  - apply (Hbody "from-body"); [reflexivity | reflexivity | discriminate].
Defined.

(** C10.  Stripping removes the first occurrence of the prefix only:
    whatever follows the leading "x-target-" is kept, also when it
    contains the prefix again, so the inbound header
    x-target-x-target-a is forwarded under x-target-a with its value. *)
Theorem C10_only_the_leading_prefix_is_stripped :
  (∀ rest, JSString.replace ("x-target-" +:+ rest) "x-target-" "" = rest)
  ∧ JSString.replace "x-target-x-target-a" "x-target-" "" = "x-target-a"
  ∧ ∀ v, translateHeaders {[ "x-target-x-target-a" := v ]}
         = {[ "x-target-a" := v ]}.
Proof.
  split_and!.
  - intros rest. apply replace_leading.
  - reflexivity.
  - intros v. apply map_eq. intros name. rewrite translateHeaders_lookup.
    destruct (decide (name = "x-target-a")) as [->|Hn].
    + rewrite decide_False by done.
      change ("x-target-" +:+ "x-target-a") with "x-target-x-target-a".
      by rewrite !lookup_singleton_eq.
    + rewrite (lookup_singleton_ne "x-target-a" name) by done.
      case_decide; [done|]. apply lookup_singleton_ne.
      intros Heq. apply Hn. symmetry.
      by apply (inj (String.append "x-target-") "x-target-a" name).
Qed.

(** * Further properties of the code *)

(** ** The configuration constants *)

Section ConfigFacts.

Import JSString.

Lemma split_not_nil s sep : split s sep ≠ [].
Proof.
  destruct s as [|c s]; simpl; [done|].
  destruct (Ascii.eqb c sep); [done|]. by destruct (split s sep).
Qed.

Lemma split_concat s sep : String.concat (String sep "") (split s sep) = s.
Proof.
  induction s as [|c s IH]; simpl; [done|].
  destruct (Ascii.eqb_spec c sep) as [->|Hc].
  - destruct (split s sep) as [|piece pieces] eqn:E; [by apply split_not_nil in E|].
    change (String.concat (String sep "") ("" :: piece :: pieces))
      with (String sep (String.concat (String sep "") (piece :: pieces))).
    by rewrite IH.
  - destruct (split s sep) as [|piece pieces] eqn:E; [by apply split_not_nil in E|].
    destruct pieces as [|piece' pieces].
    + simpl in *. by rewrite IH.
    + change (String.concat (String sep "") (String c piece :: piece' :: pieces))
        with (String c (String.concat (String sep "") (piece :: piece' :: pieces))).
      by rewrite IH.
Qed.

Lemma split_pieces_free s sep piece :
  piece ∈ split s sep → ¬ contains piece (String sep "").
Proof.
  revert piece. induction s as [|c s IH]; intros piece; simpl.
  - intros ->%list_elem_of_singleton (pre & post & H). by destruct pre.
  - destruct (Ascii.eqb_spec c sep) as [->|Hc].
    + intros [->|Hin]%elem_of_cons; [|by apply IH].
      intros (pre & post & H). by destruct pre.
    + destruct (split s sep) as [|first pieces] eqn:E; [by apply split_not_nil in E|].
      intros [->|Hin]%elem_of_cons.
      * intros (pre & post & H). destruct pre as [|c' pre]; simpl in H.
        -- injection H as H _. by apply Hc.
        -- injection H as _ H. apply (IH first); [apply elem_of_cons; by left|].
           by exists pre, post.
      * apply IH. apply elem_of_cons. by right.
Qed.

Lemma API_KEY_null config :
  proxy_group config ≫= apikey = None ∨ proxy_group config ≫= apikey = Some "" →
  API_KEY config = null.
Proof. unfold API_KEY. by intros [->| ->]. Qed.

End ConfigFacts.

(** X1.  A configured key that is missing or empty is no key: whatever
    the request carries, also an empty x-api-key header, the handler
    answers 401 and makes no outbound call. *)
Theorem X1_empty_configured_key_rejects_everyone
    (P : Platform) (config : Config) (req : Request) (calls : list OutboundCall) :
  proxy_group config ≫= apikey = None ∨ proxy_group config ≫= apikey = Some "" →
  proxy P config req calls
  = (inr {| code := 401; payload := ErrorBody "Invalid API key" |}, calls).
Proof.
  intros Hkey. apply proxy_rejected. unfold rejected_key.
  by rewrite (API_KEY_null config Hkey).
Qed.

(** X1 at an empty configured key and a request that sends the empty
    key. *)
Lemma X1_empty_configured_key_rejects_everyone_witness :
  let config := {| proxy_group := Some {| apikey := Some "";
                                          domains := Some "httpbin.org" |} |} in
  let req := {| method := "GET"; headers := {[ "x-api-key" := "" ]};
                query := Some {[ "url" := "https://httpbin.org/json" ]};
                body := None |} in
  proxy Sample.platform config req []
  = (inr {| code := 401; payload := ErrorBody "Invalid API key" |}, []).
Proof.
  intros config req.
  apply (X1_empty_configured_key_rejects_everyone Sample.platform config req []).
  right. reflexivity.
Defined.

(** X2.  The allowed hosts are the pieces of the configured string
    between its commas, kept as they are (nothing is trimmed or
    dropped): joined with commas they give the string back, and no
    piece contains a comma. *)
Theorem X2_allowed_domains_are_the_comma_pieces (config : Config) (d : string) :
  proxy_group config ≫= domains = Some d →
  String.concat "," (ALLOWED_DOMAINS config) = d
  ∧ ∀ host, host ∈ ALLOWED_DOMAINS config → ¬ contains host ",".
Proof.
  intros Hd. unfold ALLOWED_DOMAINS. rewrite Hd. split.
  - apply (split_concat d (Ascii.ascii_of_nat 44)).
  - intros host. apply (split_pieces_free d (Ascii.ascii_of_nat 44)).
Qed.

(** X2 at a configured string with a space after the comma. *)
Lemma X2_allowed_domains_are_the_comma_pieces_witness :
  let config := {| proxy_group := Some {| apikey := None;
                                          domains := Some "a.com, b.com" |} |} in
  ALLOWED_DOMAINS config = ["a.com"; " b.com"]
  ∧ String.concat "," (ALLOWED_DOMAINS config) = "a.com, b.com".
Proof.
  intros config. split; [reflexivity|].
  apply (X2_allowed_domains_are_the_comma_pieces config "a.com, b.com").
  reflexivity.
Defined.

(** X3.  The list of allowed hosts is empty exactly when the
    configuration has no domains entry.  An entry that is the empty
    string gives the list of the one empty host name. *)
Theorem X3_allowed_domains_empty_iff_unset (config : Config) :
  (ALLOWED_DOMAINS config = [] ↔ proxy_group config ≫= domains = None)
  ∧ (proxy_group config ≫= domains = Some "" → ALLOWED_DOMAINS config = [""]).
Proof.
  unfold ALLOWED_DOMAINS. split.
  - destruct (proxy_group config ≫= domains) as [d|]; [|done].
    split; [|done]. intros H. by apply split_not_nil in H.
  - by intros ->.
Qed.

(** X3 at a configuration whose domains entry is the empty string. *)
Lemma X3_allowed_domains_empty_iff_unset_witness :
  ALLOWED_DOMAINS
    {| proxy_group := Some {| apikey := Some "test-key-123"; domains := Some "" |} |}
  = [""].
Proof.
  apply (X3_allowed_domains_empty_iff_unset
           {| proxy_group := Some {| apikey := Some "test-key-123";
                                     domains := Some "" |} |}).
  reflexivity.
Defined.

(** ** Validation and the outbound call *)

Section ForwardFacts.

Variable P : Platform.
Variable config : Config.

Lemma validateUrl_valid url :
  validateUrl P config url = Valid ↔
  ∃ s u, url = JSStr s ∧ s ≠ "" ∧ URL_new P s = inr u
         ∧ hostname u ∈ ALLOWED_DOMAINS config.
Proof.
  split.
  - intros H. destruct (truthy url) eqn:Ht.
    + destruct url as [| |s]; try done.
      assert (Hs : s ≠ "") by (intros ->; done).
      rewrite validateUrl_string in H by done.
      destruct (URL_new P s) as [e|u] eqn:Hp; [done|].
      destruct (bool_decide (hostname u ∈ ALLOWED_DOMAINS config)) eqn:Hb; [|done].
      apply bool_decide_eq_true in Hb. by exists s, u.
    + by rewrite validateUrl_missing in H.
  - intros (s & u & -> & Hs & Hp & Hin).
    by rewrite validateUrl_string, Hp, bool_decide_eq_true_2.
Qed.

Lemma validateUrl_unlisted url :
  validateUrl P config url = Invalid "Domain not allowed" ↔
  ∃ s u, url = JSStr s ∧ s ≠ "" ∧ URL_new P s = inr u
         ∧ hostname u ∉ ALLOWED_DOMAINS config.
Proof.
  split.
  - intros H. destruct (truthy url) eqn:Ht.
    + destruct url as [| |s]; try done.
      assert (Hs : s ≠ "") by (intros ->; done).
      rewrite validateUrl_string in H by done.
      destruct (URL_new P s) as [e|u] eqn:Hp; [done|].
      destruct (bool_decide (hostname u ∈ ALLOWED_DOMAINS config)) eqn:Hb; [done|].
      apply bool_decide_eq_false in Hb. by exists s, u.
    + by rewrite validateUrl_missing in H.
  - intros (s & u & -> & Hs & Hp & Hin).
    by rewrite validateUrl_string, Hp, bool_decide_eq_false_2.
Qed.

(** The three messages validation can give. *)
Lemma validateUrl_errors url error :
  validateUrl P config url = Invalid error →
  error = "URL required" ∨ error = "Invalid URL format"
  ∨ error = "Domain not allowed".
Proof.
  unfold validateUrl. destruct (negb (truthy url)).
  - intros [= <-]. by left.
  - destruct (URL_new P (ToString url)) as [e|u].
    + intros [= <-]. right. by left.
    + destruct (negb _); [|done]. intros [= <-]. right. by right.
Qed.

(** The calls after a run: those before it, and one more exactly when
    both gates were passed. *)
Lemma proxy_trace req calls :
  (proxy P config req calls).2 =
  if rejected_key config req then calls
  else match validateUrl P config (target_url req) with
       | Valid => (calls ++ [outbound_call req])%list
       | Invalid _ => calls
       end.
Proof.
  destruct (rejected_key config req) eqn:Hr.
  - by rewrite proxy_rejected.
  - destruct (validateUrl P config (target_url req)) as [|error] eqn:Hv.
    + by rewrite proxy_forward.
    + by rewrite (proxy_invalid _ _ _ _ error).
Qed.

End ForwardFacts.

(** X4.  Validation succeeds exactly when the URL is a non-empty string
    that parses and whose host name is, as it stands, a member of the
    allowed list; it fails with "Domain not allowed" exactly when such
    a URL parses to a host name outside the list. *)
Theorem X4_validation_succeeds_iff_host_listed
    (P : Platform) (config : Config) (url : JSValue) :
  (validateUrl P config url = Valid
   ↔ ∃ s u, url = JSStr s ∧ s ≠ "" ∧ URL_new P s = inr u
            ∧ hostname u ∈ ALLOWED_DOMAINS config)
  ∧ (validateUrl P config url = Invalid "Domain not allowed"
     ↔ ∃ s u, url = JSStr s ∧ s ≠ "" ∧ URL_new P s = inr u
              ∧ hostname u ∉ ALLOWED_DOMAINS config).
Proof. split; [apply validateUrl_valid | apply validateUrl_unlisted]. Qed.

(** X4 at a listed host and at a host that only ends in a listed one. *)
Lemma X4_validation_succeeds_iff_host_listed_witness :
  let P := {| JSONValue := Sample.json;
              URL_new := λ s, if String.eqb s "https://sub.httpbin.org/"
                              then inr {| hostname := "sub.httpbin.org" |}
                              else Sample.parse_url s;
              fetch_outcome := Sample.upstream;
              JSON_parse := Sample.parse_json |} in
  validateUrl P Sample.config (JSStr "https://httpbin.org/json") = Valid
  ∧ validateUrl P Sample.config (JSStr "https://sub.httpbin.org/")
    = Invalid "Domain not allowed".
Proof.
  intros P. split.
  - apply (X4_validation_succeeds_iff_host_listed P Sample.config).
    exists "https://httpbin.org/json", {| hostname := "httpbin.org" |}.
    split_and!; [reflexivity | discriminate | reflexivity |].
    change (ALLOWED_DOMAINS Sample.config) with ["httpbin.org"; "api.example.com"].
    apply elem_of_cons. by left.
  - apply (X4_validation_succeeds_iff_host_listed P Sample.config).
    exists "https://sub.httpbin.org/", {| hostname := "sub.httpbin.org" |}.
    split_and!; [reflexivity | discriminate | reflexivity |].
    change (ALLOWED_DOMAINS Sample.config) with ["httpbin.org"; "api.example.com"].
    intros H. apply elem_of_cons in H as [H|H]; [done|].
    apply elem_of_cons in H as [H|H]; [done|]. by apply elem_of_nil in H.
Defined.

(** X5.  The handler has four kinds of answer and no other: 200 with an
    envelope, 401 with "Invalid API key", 400 with one of the three
    validation messages, 500 with "Proxy request failed".  The status
    is 200 exactly for an envelope, and 403 is never sent. *)
Theorem X5_the_four_answers
    (P : Platform) (config : Config) (req : Request)
    (calls calls' : list OutboundCall) (answer : HttpResponse (JSONValue P)) :
  proxy P config req calls = (inr answer, calls') →
  (code answer = 200 ∧ ∃ st data, payload answer = Envelope st data)
  ∨ (code answer = 401 ∧ payload answer = ErrorBody "Invalid API key")
  ∨ (code answer = 400
     ∧ (payload answer = ErrorBody "URL required"
        ∨ payload answer = ErrorBody "Invalid URL format"
        ∨ payload answer = ErrorBody "Domain not allowed"))
  ∨ (code answer = 500 ∧ payload answer = ErrorBody "Proxy request failed").
Proof.
  destruct (rejected_key config req) eqn:Hr.
  - rewrite proxy_rejected by done. intros [= <- _]. right. by left.
  - destruct (validateUrl P config (target_url req)) as [|error] eqn:Hv.
    + rewrite proxy_forward by done. intros [= <- _].
      destruct (fetch_outcome P (outbound_call req)) as [e|response].
      * by do 3 right.
      * destruct (if labelled_json _ then _ else _) as [e|data].
        -- by do 3 right.
        -- left. split; [done|]. by eexists _, _.
    + rewrite (proxy_invalid _ _ _ _ error) by done. intros [= <- _].
      right. right. left. split; [done|]. simpl.
      destruct (validateUrl_errors _ _ _ _ Hv) as [->|[->| ->]]; auto.
Qed.

(** X5 at the run of a request for an unlisted host. *)
Lemma X5_the_four_answers_witness :
  let answer : HttpResponse (JSONValue Sample.platform) :=
    {| code := 400; payload := ErrorBody "Domain not allowed" |} in
  (code answer = 200 ∧ ∃ st data, payload answer = Envelope st data)
  ∨ (code answer = 401 ∧ payload answer = ErrorBody "Invalid API key")
  ∨ (code answer = 400
     ∧ (payload answer = ErrorBody "URL required"
        ∨ payload answer = ErrorBody "Invalid URL format"
        ∨ payload answer = ErrorBody "Domain not allowed"))
  ∨ (code answer = 500 ∧ payload answer = ErrorBody "Proxy request failed").
Proof.
  intros answer.
  apply (X5_the_four_answers Sample.platform Sample.config
           (Sample.request {[ "url" := "https://evil.com/x" ]} ∅) [] [] answer).
  reflexivity.
Defined.

(** X6.  A run keeps the outbound calls made before it and adds at most
    one: none when the key is rejected or validation fails, and exactly
    the call built from the request when both gates are passed, whether
    or not that call then succeeds.  Nothing is retried. *)
Theorem X6_one_call_after_both_gates_none_before
    (P : Platform) (config : Config) (req : Request) (calls : list OutboundCall) :
  (rejected_key config req = true ∨ validateUrl P config (target_url req) ≠ Valid
   → (proxy P config req calls).2 = calls)
  ∧ (rejected_key config req = false ∧ validateUrl P config (target_url req) = Valid
     → (proxy P config req calls).2 = (calls ++ [outbound_call req])%list).
Proof.
  rewrite proxy_trace. split.
  - intros [-> | Hv]; [done|]. destruct (rejected_key config req); [done|].
    by destruct (validateUrl P config (target_url req)).
  - by intros [-> ->].
Qed.

(** X6 at a forward that fails and at a request without url, each after
    an earlier call. *)
Lemma X6_one_call_after_both_gates_none_before_witness :
  let earlier := outbound_call (Sample.request {[ "url" := "https://httpbin.org/json" ]} ∅) in
  let failing := Sample.request {[ "url" := "https://httpbin.org/reset" ]} ∅ in
  (proxy Sample.platform Sample.config failing [earlier]).2
  = [earlier; outbound_call failing]
  ∧ (proxy Sample.platform Sample.config (Sample.request ∅ ∅) [earlier]).2
    = [earlier].
Proof.
  intros earlier failing. split.
  - apply (X6_one_call_after_both_gates_none_before
             Sample.platform Sample.config failing [earlier]).
    split; reflexivity.
  - apply (X6_one_call_after_both_gates_none_before
             Sample.platform Sample.config (Sample.request ∅ ∅) [earlier]).
    right. vm_compute. discriminate.
Defined.

(** X7.  Every outbound call is made for a request that carried the
    configured, non-empty key, is addressed to the very string that was
    validated, whose host name is in the allowed list, and uses the
    method of the request. *)
Theorem X7_calls_need_the_key_and_a_listed_host
    (P : Platform) (config : Config) (req : Request) (call : OutboundCall) :
  call ∈ (proxy P config req []).2 →
  (∃ k, k ≠ "" ∧ API_KEY config = JSStr k ∧ headers req !! "x-api-key" = Some k)
  ∧ (∃ s u, call_url call = JSStr s ∧ URL_new P s = inr u
            ∧ hostname u ∈ ALLOWED_DOMAINS config)
  ∧ call_method call = method req.
Proof.
  rewrite proxy_trace.
  destruct (rejected_key config req) eqn:Hr; [by intros ?%elem_of_nil|].
  destruct (validateUrl P config (target_url req)) as [|error] eqn:Hv;
    [|by intros ?%elem_of_nil].
  intros ->%list_elem_of_singleton. split_and!.
  - by apply rejected_key_false.
  - apply validateUrl_valid in Hv as (s & u & Hs & _ & Hp & Hin). by exists s, u.
  - done.
Qed.

(** X7 at the call of a request for a listed host. *)
Lemma X7_calls_need_the_key_and_a_listed_host_witness :
  let req := Sample.request {[ "url" := "https://httpbin.org/json" ]} ∅ in
  ∃ s u, call_url (outbound_call req) = JSStr s
         ∧ URL_new Sample.platform s = inr u
         ∧ hostname u ∈ ALLOWED_DOMAINS Sample.config.
Proof.
  intros req.
  apply (X7_calls_need_the_key_and_a_listed_host
           Sample.platform Sample.config req (outbound_call req)).
  apply list_elem_of_singleton. reflexivity.
Defined.

(** ** The forwarded headers *)

Section ForwardedHeaderFacts.

Implicit Types (inbound : gmap string string) (key name : string).

Lemma translateHeaders_insert_unprefixed inbound key v :
  JSString.startsWith key "x-target-" = false →
  translateHeaders (<[key := v]> inbound) = translateHeaders inbound.
Proof.
  intros Hp. apply map_eq. intros name. rewrite !translateHeaders_lookup.
  case_decide; [done|]. apply lookup_insert_ne. intros ->.
  by rewrite startsWith_app in Hp.
Qed.

Lemma strip_inj key1 key2 :
  JSString.startsWith key1 "x-target-" = true →
  JSString.startsWith key2 "x-target-" = true →
  JSString.replace key1 "x-target-" "" = JSString.replace key2 "x-target-" "" →
  key1 = key2.
Proof.
  intros [r1 ->]%startsWith_spec [r2 ->]%startsWith_spec.
  rewrite !replace_leading. by intros ->.
Qed.

End ForwardedHeaderFacts.

(** X8.  Every header of an outbound call is an inbound header that
    carried the prefix x-target-, under the stripped name and with its
    value; so the call has a header x-api-key only if the request has a
    header x-target-x-api-key. *)
Theorem X8_call_headers_come_from_prefixed_headers
    (P : Platform) (config : Config) (req : Request) (call : OutboundCall) :
  call ∈ (proxy P config req []).2 →
  (∀ name v, call_headers call !! name = Some v →
             headers req !! ("x-target-" +:+ name) = Some v)
  ∧ (headers req !! "x-target-x-api-key" = None →
     call_headers call !! "x-api-key" = None).
Proof.
  intros Hcall.
  assert (call_headers call = translateHeaders (headers req)) as ->.
  { destruct (proxy_calls P config req) as [E|E]; rewrite E in Hcall.
    - by apply elem_of_nil in Hcall.
    - by apply list_elem_of_singleton in Hcall as ->. }
  split.
  - intros name v. apply translateHeaders_only_prefixed.
  - apply translateHeaders_keeps_the_key.
Qed.

(** X8 at a request with a cookie and one prefixed header. *)
Lemma X8_call_headers_come_from_prefixed_headers_witness :
  let req := {| method := "GET";
                headers := <[ "cookie" := "session=1" ]>
                             (<[ "x-target-authtoken" := "abc123" ]>
                                {[ "x-api-key" := "test-key-123" ]});
                query := Some {[ "url" := "https://httpbin.org/json" ]};
                body := None |} in
  call_headers (outbound_call req) !! "x-api-key" = None.
Proof.
  intros req.
  apply (X8_call_headers_come_from_prefixed_headers
           Sample.platform Sample.config req (outbound_call req)).
  - apply list_elem_of_singleton. reflexivity.
  - reflexivity.
Defined.

(** X9.  The outbound headers hold [v] under [name] exactly when [name]
    is not __proto__ and the inbound headers hold [v] under x-target-
    followed by [name]: values are copied unchanged, the remainder may
    be empty, and no other entry is made. *)
Theorem X9_outbound_entries (inbound : gmap string string) (name v : string) :
  translateHeaders inbound !! name = Some v
  ↔ name ≠ "__proto__" ∧ inbound !! ("x-target-" +:+ name) = Some v.
Proof.
  rewrite translateHeaders_lookup. case_decide as Hn.
  - split; [done | by intros [? _]].
  - split; [done | by intros [_ ?]].
Qed.

(** X9 at a header whose name is the prefix alone. *)
Lemma X9_outbound_entries_witness :
  translateHeaders {[ "x-target-" := "v" ]} !! "" = Some "v".
Proof.
  apply (X9_outbound_entries {[ "x-target-" := "v" ]} "" "v").
  split; [discriminate | reflexivity].
Defined.

(** X10.  Two different inbound names that carry the prefix are
    stripped to different outbound names: no forwarded header
    overwrites another. *)
Theorem X10_stripped_names_never_collide (key1 key2 : string) :
  JSString.startsWith key1 "x-target-" = true →
  JSString.startsWith key2 "x-target-" = true →
  key1 ≠ key2 →
  JSString.replace key1 "x-target-" "" ≠ JSString.replace key2 "x-target-" "".
Proof. intros H1 H2 Hne Heq. apply Hne. by apply strip_inj. Qed.

(** X10 at two names of which one repeats the prefix. *)
Lemma X10_stripped_names_never_collide_witness :
  JSString.replace "x-target-x-target-a" "x-target-" ""
  ≠ JSString.replace "x-target-a" "x-target-" "".
Proof.
  apply (X10_stripped_names_never_collide "x-target-x-target-a" "x-target-a");
    [reflexivity | reflexivity | discriminate].
Defined.

(** X11.  The outbound headers do not depend on the order in which the
    inbound names are visited, nor on a name being visited twice: two
    lists with the same names give the same object. *)
Theorem X11_visiting_order_is_irrelevant
    (inbound : gmap string string) (keys1 keys2 : list string) :
  (∀ key, key ∈ keys1 ↔ key ∈ keys2) →
  forward_headers_over keys1 inbound = forward_headers_over keys2 inbound.
Proof.
  intros Hsame. apply map_eq. intros name. unfold forward_headers_over.
  rewrite !forward_headers_fold.
  destruct (decide (name ≠ "__proto__" ∧ "x-target-" +:+ name ∈ keys1))
    as [[Hn Hin]|Hno].
  - rewrite decide_True; [done|]. split; [done|]. by apply Hsame.
  - rewrite decide_False; [done|]. intros [Hn Hin]. apply Hno. split; [done|].
    by apply Hsame.
Qed.

(** X11 at two orders of three names, one of them repeated. *)
Lemma X11_visiting_order_is_irrelevant_witness :
  let inbound : gmap string string :=
    <[ "x-target-a" := "1" ]> (<[ "x-target-b" := "2" ]> {[ "host" := "h" ]}) in
  forward_headers_over ["x-target-a"; "host"; "x-target-b"] inbound
  = forward_headers_over ["x-target-b"; "x-target-a"; "host"; "x-target-b"] inbound.
Proof.
  intros inbound.
  apply (X11_visiting_order_is_irrelevant inbound).
  intros key. rewrite !elem_of_cons, !elem_of_nil. tauto.
Defined.

(** X12.  An inbound header that neither carries the prefix nor is
    x-api-key has no influence: adding it to a request, or changing its
    value, changes neither the answer nor the outbound calls. *)
Theorem X12_other_headers_are_ignored
    (P : Platform) (config : Config) (req : Request) (key v : string)
    (calls : list OutboundCall) :
  JSString.startsWith key "x-target-" = false →
  key ≠ "x-api-key" →
  proxy P config
    {| method := method req; headers := <[key := v]> (headers req);
       query := query req; body := body req |} calls
  = proxy P config req calls.
Proof.
  intros Hp Hk.
  set (req' := {| method := method req; headers := <[key := v]> (headers req);
                  query := query req; body := body req |}).
  assert (Hr : rejected_key config req' = rejected_key config req).
  { unfold rejected_key, prop_get. simpl. by rewrite lookup_insert_ne. }
  assert (Hc : outbound_call req' = outbound_call req).
  { unfold outbound_call. simpl. by rewrite translateHeaders_insert_unprefixed. }
  unfold proxy, proxy_try. by rewrite Hr, Hc.
Qed.

(** X12 at a cookie added to a request. *)
Lemma X12_other_headers_are_ignored_witness :
  let req := Sample.request {[ "url" := "https://httpbin.org/json" ]} ∅ in
  proxy Sample.platform Sample.config
    {| method := method req; headers := <[ "cookie" := "session=1" ]> (headers req);
       query := query req; body := body req |} []
  = proxy Sample.platform Sample.config req [].
Proof.
  intros req.
  apply (X12_other_headers_are_ignored Sample.platform Sample.config req
           "cookie" "session=1" []); [reflexivity | discriminate].
Defined.

(** X13.  A configuration that lacks the key or the domains entry
    closes the gateway: no request leads to an outbound call. *)
Theorem X13_missing_configuration_means_no_call
    (P : Platform) (config : Config) (req : Request) (calls : list OutboundCall) :
  proxy_group config ≫= apikey = None ∨ proxy_group config ≫= domains = None →
  (proxy P config req calls).2 = calls.
Proof.
  intros Hmissing. rewrite proxy_trace.
  destruct (rejected_key config req) eqn:Hr; [done|].
  destruct (validateUrl P config (target_url req)) as [|error] eqn:Hv; [|done].
  exfalso. destruct Hmissing as [Hk|Hd].
  - apply rejected_key_false in Hr as (k & _ & Hkey & _).
    rewrite API_KEY_null in Hkey by (by left). discriminate.
  - apply validateUrl_valid in Hv as (s & u & _ & _ & _ & Hin).
    unfold ALLOWED_DOMAINS in Hin. rewrite Hd in Hin. by apply elem_of_nil in Hin.
Qed.

(** X13 at the configuration without domains and a well-formed
    request. *)
Lemma X13_missing_configuration_means_no_call_witness :
  (proxy Sample.platform Sample.config_no_domains
     (Sample.request {[ "url" := "https://httpbin.org/json" ]} ∅) []).2 = [].
Proof.
  apply (X13_missing_configuration_means_no_call
           Sample.platform Sample.config_no_domains).
  right. reflexivity.
Defined.

(** ** What an answer tells about the run *)



(** X15.  An answer with status 500 is sent only after the outbound
    call was made and the forward failed in one of the three ways: the
    gates themselves never answer 500. *)
Theorem X15_status_500_means_a_failed_forward
    (P : Platform) (config : Config) (req : Request)
    (calls calls' : list OutboundCall) (answer : HttpResponse (JSONValue P)) :
  proxy P config req calls = (inr answer, calls') →
  code answer = 500 →
  rejected_key config req = false
  ∧ validateUrl P config (target_url req) = Valid
  ∧ forward_fails P (outbound_call req)
  ∧ calls' = (calls ++ [outbound_call req])%list.
Proof.
  destruct (rejected_key config req) eqn:Hr.
  { rewrite proxy_rejected by done. by intros [= <- _]. }
  destruct (validateUrl P config (target_url req)) as [|error] eqn:Hv.
  2: { rewrite (proxy_invalid _ _ _ _ error) by done. by intros [= <- _]. }
  rewrite proxy_forward by done. intros [= <- <-] Hcode.
  split_and!; try done. unfold forward_fails.
  destruct (fetch_outcome P (outbound_call req)) as [e|response]; [left; by exists e|].
  right. unfold decoded_json, opaque_text in Hcode.
  destruct (body_read response) as [e|text] eqn:Hb.
  - left. by exists response, e.
  - destruct (labelled_json (headers_get response "content-type")) eqn:Hl; [|done].
    destruct (JSON_parse P text) as [e|j] eqn:Hj; [|done].
    right. by exists response, text, e.
Qed.

(** X15 at the answer to a request whose upstream refuses the
    connection. *)
Lemma X15_status_500_means_a_failed_forward_witness :
  forward_fails Sample.platform
    (outbound_call (Sample.request {[ "url" := "https://httpbin.org/reset" ]} ∅)).
Proof.
  apply (X15_status_500_means_a_failed_forward Sample.platform Sample.config
           (Sample.request {[ "url" := "https://httpbin.org/reset" ]} ∅)
           [] [outbound_call (Sample.request {[ "url" := "https://httpbin.org/reset" ]} ∅)]
           {| code := 500; payload := ErrorBody "Proxy request failed" |});
    reflexivity.
Defined.
